(** * chatgptTroll front end: the chat view and the responder dashboard

    A shallow embedding of [frontend/src/App.jsx]: the state held by the
    [Chat] and [Responder] components, their socket listeners and their
    form handlers, written as functions from a component state to the
    next state and the list of effects performed, in program order.

    Conventions of the embedding.
    - A JavaScript string is a [string]; each character stands for one
      code unit, so the code units covered are those below 256.
    - A component state is a record with one field per [useState] cell.
      A state setter replaces the field; the functional form
      [setChat (prevChat => ...)] reads the field it replaces.
    - An object used as a dictionary ([activeRooms]) is a [gmap] from
      property name to value, holding its own enumerable properties.
      A plain assignment [acc[key] = value] creates no property when the
      key is [__proto__], which [Object.prototype] provides as an
      accessor; a computed key in an object literal and the spread of an
      object create own properties for every name.
    - [Chat.deliver] and [Chat.run] apply the listeners and handlers of
      one mounted chat view.  A [roomDeleted] event makes the view call
      [navigate "/"], after which the router replaces the view by a
      fresh one; what the state of the page is from then on is outside
      these two functions, whose effects (the calls made) stay
      meaningful.
    - Effects are recorded in a list: socket emissions, navigation,
      toasts, [preventDefault] and scrolling.  [console.log] calls are
      not recorded. *)

From stdpp Require Import gmap strings list fin_maps.
From Stdlib Require Import Ascii.

(** ** JavaScript string primitives used by the components *)

Module JsString.

(** [WhiteSpace] and [LineTerminator] code units below 256: TAB, LF, VT,
    FF, CR, SP and NBSP. *)
Definition is_white_space (c : ascii) : bool :=
  match c with
  | "009" | "010" | "011" | "012" | "013" | " " | "160" => true
  | _ => false
  end%char.

Fixpoint trimStart (s : string) : string :=
  match s with
  | EmptyString => EmptyString
  | String c s' => if is_white_space c then trimStart s' else s
  end.

Fixpoint trimEnd (s : string) : string :=
  match s with
  | EmptyString => EmptyString
  | String c s' =>
      match trimEnd s' with
      | EmptyString => if is_white_space c then EmptyString else String c EmptyString
      | t => String c t
      end
  end.

(** [String.prototype.trim] *)
Definition trim (s : string) : string := trimEnd (trimStart s).

(** [ToBoolean] on a string: every string but the empty one is truthy. *)
Definition truthy (s : string) : bool :=
  match s with
  | EmptyString => false
  | String _ _ => true
  end.

Fixpoint startsWith (s search : string) : bool :=
  match search, s with
  | EmptyString, _ => true
  | String _ _, EmptyString => false
  | String a search', String b s' =>
      if decide (a = b) then startsWith s' search' else false
  end.

(** [String.prototype.includes] *)
Fixpoint includes (s search : string) : bool :=
  startsWith s search ||
  match s with
  | EmptyString => false
  | String _ s' => includes s' search
  end.

Fixpoint all_white_space (s : string) : bool :=
  match s with
  | EmptyString => true
  | String c s' => is_white_space c && all_white_space s'
  end.

(** [String.prototype.split] with a separator of one code unit: the
    pieces between the occurrences of [sep], in order.  The result is
    never empty: a string without [sep] is its own single piece. *)
Fixpoint split (sep : ascii) (s : string) : list string :=
  match s with
  | EmptyString => [EmptyString]
  | String c s' =>
      if decide (c = sep) then EmptyString :: split sep s'
      else match split sep s' with
           | [] => [String c EmptyString]
           | piece :: pieces => String c piece :: pieces
           end
  end.

(** [Array.prototype.join] with a separator of one code unit. *)
Fixpoint join (sep : ascii) (pieces : list string) : string :=
  match pieces with
  | [] => EmptyString
  | [piece] => piece
  | piece :: pieces' => piece +:+ String sep (join sep pieces')
  end.

End JsString.

(** ** Data carried by the socket *)

(** An entry of the chat: [{ role, message }]. *)
Record Message := Msg { role : string; message : string }.

(** An entry of the rooms list: [{ id, latestMessage }].  [latestMessage]
    is [None] when the entry has no such field ([undefined]), as for a
    room that has no message yet (the dashboard then shows "No messages
    yet"). *)
Record Room := { id : string; latestMessage : option string }.

(** Events the server pushes, named as the listeners register them. *)
Inductive ServerEvent :=
| chatHistory (messages : list Message)
| question (roomId msg : string)
| response (roomId msg : string)
| roomDeleted (roomId : string)
| typing
| stopTyping
| roomsList (rooms : list Room)
| getRooms.

(** The argument of [socket.emit]. *)
Inductive Payload :=
| NoArgs
| Str (s : string)
| RoomOnly (roomId : string)
| RoomMsg (roomId msg : string).

Inductive Effect :=
| emit (event : string) (payload : Payload)
| navigate (to : string)
| toast_success (text : string)
| preventDefault
| scrollIntoView.

#[global] Instance Message_eq_dec : EqDecision Message.
Proof. solve_decision. Defined.
#[global] Instance Payload_eq_dec : EqDecision Payload.
Proof. solve_decision. Defined.
#[global] Instance Effect_eq_dec : EqDecision Effect.
Proof. solve_decision. Defined.

(** The socket emissions among a list of effects, in order. *)
Fixpoint emissions (effs : list Effect) : list (string * Payload) :=
  match effs with
  | [] => []
  | emit ev p :: effs' => (ev, p) :: emissions effs'
  | _ :: effs' => emissions effs'
  end.

(** The targets of the [navigate] calls among a list of effects. *)
Fixpoint navigations (effs : list Effect) : list string :=
  match effs with
  | [] => []
  | navigate to :: effs' => to :: navigations effs'
  | _ :: effs' => navigations effs'
  end.

(** A send event is a [question] or a [response] emission. *)
Definition is_send (e : string * Payload) : bool :=
  bool_decide (e.1 = "question") || bool_decide (e.1 = "response").

(** ** The chat view *)

Module Chat.

Record State := {
  roomId : string;          (* useParams *)
  chat : list Message;      (* useState([]) *)
  message : string;         (* useState("") *)
  isTyping : bool           (* useState(false) *)
}.

Definition setChat (c : list Message) (st : State) : State :=
  {| roomId := roomId st; chat := c; message := message st; isTyping := isTyping st |}.

Definition setMessage (m : string) (st : State) : State :=
  {| roomId := roomId st; chat := chat st; message := m; isTyping := isTyping st |}.

Definition setIsTyping (b : bool) (st : State) : State :=
  {| roomId := roomId st; chat := chat st; message := message st; isTyping := b |}.

(** First render at [/user/:roomId] or [/chat/:roomId], and the effect
    that runs after it. *)
Definition mount (r : string) : State * list Effect :=
  ({| roomId := r; chat := []; message := ""; isTyping := false |},
   [emit "getMessages" (Str r)]).

(** The route parameter changes while the view stays mounted: the state
    cells are kept and the effect runs again for the new [roomId]. *)
Definition rebind (r : string) (st : State) : State * list Effect :=
  ({| roomId := r; chat := chat st; message := message st; isTyping := isTyping st |},
   [emit "getMessages" (Str r)]).

Definition handleChatHistory (st : State) (messages : list Message)
  : State * list Effect :=
  (setChat messages st, [scrollIntoView]).

Definition handleQuestion (st : State) (receivedRoomId msg : string)
  : State * list Effect :=
  if decide (receivedRoomId = roomId st) then
    (setChat (chat st ++ [Msg "asker" msg]) st, [scrollIntoView])
  else (st, []).

Definition handleResponse (st : State) (receivedRoomId msg : string)
  : State * list Effect :=
  if decide (receivedRoomId = roomId st) then
    (setChat (chat st ++ [Msg "responder" msg]) st, [scrollIntoView])
  else (st, []).

(** The parameter is the [roomId] of the payload; the room the view is
    bound to is not read. *)
Definition handleRoomDeleted (st : State) (roomId : string)
  : State * list Effect :=
  (st, [toast_success ("Room " +:+ roomId +:+ " has been deleted"); navigate "/"]).

Definition handleTyping (st : State) : State * list Effect :=
  (setIsTyping true st, []).

Definition handleStopTyping (st : State) : State * list Effect :=
  (setIsTyping false st, []).

(** [pathname] is [window.location.pathname] when the form is submitted. *)
Definition sendMessage (pathname : string) (st : State) : State * list Effect :=
  if JsString.truthy (JsString.trim (message st)) then
    let role :=
      if JsString.includes pathname "/chat/" then "responder" else "asker" in
    (setMessage "" st,
     [preventDefault;
      emit (if decide (role = "responder") then "response" else "question")
           (RoomMsg (roomId st) (message st));
      emit "stopTyping" (RoomOnly (roomId st))])
  else (st, [preventDefault]).

Definition handleInputChange (value : string) (st : State) : State * list Effect :=
  (setMessage value st, [emit "typing" (RoomOnly (roomId st))]).

(** Dispatch of one pushed event to the listeners the view registers;
    an event without a listener is dropped. *)
Definition on (st : State) (ev : ServerEvent) : State * list Effect :=
  match ev with
  | chatHistory messages => handleChatHistory st messages
  | question r msg => handleQuestion st r msg
  | response r msg => handleResponse st r msg
  | roomDeleted r => handleRoomDeleted st r
  | typing => handleTyping st
  | stopTyping => handleStopTyping st
  | roomsList _ | getRooms => (st, [])
  end.

(** Events are applied one at a time, in arrival order, by the listeners
    of one mounted view.  The state computed past a [roomDeleted] is that
    of the listeners alone: on the page the router has by then replaced
    the view. *)
Fixpoint deliver (st : State) (evs : list ServerEvent) : State * list Effect :=
  match evs with
  | [] => (st, [])
  | ev :: evs' =>
      let '(st1, effs1) := on st ev in
      let '(st2, effs2) := deliver st1 evs' in
      (st2, effs1 ++ effs2)
  end.

(** What happens to a mounted view: the server pushes an event, the user
    edits the input field, or the user submits the form while the location
    is [pathname]. *)
Inductive Input :=
| pushed (ev : ServerEvent)
| typed (value : string)
| submitted (pathname : string).

Definition step (st : State) (i : Input) : State * list Effect :=
  match i with
  | pushed ev => on st ev
  | typed value => handleInputChange value st
  | submitted pathname => sendMessage pathname st
  end.

Fixpoint run (st : State) (inputs : list Input) : State * list Effect :=
  match inputs with
  | [] => (st, [])
  | i :: inputs' =>
      let '(st1, effs1) := step st i in
      let '(st2, effs2) := run st1 inputs' in
      (st2, effs1 ++ effs2)
  end.

(** The pushed events among the inputs, in order. *)
Fixpoint pushed_events (inputs : list Input) : list ServerEvent :=
  match inputs with
  | [] => []
  | pushed ev :: inputs' => ev :: pushed_events inputs'
  | _ :: inputs' => pushed_events inputs'
  end.

End Chat.

(** ** The responder dashboard *)

Module Responder.

Record State := {
  activeRooms : gmap string (option string)   (* useState({}) *)
}.

(** First render at [/responder], and the effect that runs after it. *)
Definition mount : State * list Effect :=
  ({| activeRooms := ∅ |}, [emit "getRooms" NoArgs]).

(** [acc[key] = value] on an object that started as [{}], for a value
    that is a string or [undefined]: under the name [__proto__] the
    object inherits an accessor whose setter ignores such a value, so
    nothing is stored; under any other name the value becomes an own
    property. *)
Definition assign (key : string) (value : option string)
    (acc : gmap string (option string)) : gmap string (option string) :=
  if decide (key = "__proto__") then acc else <[key := value]> acc.

(** [roomsList.reduce((acc, room) => { acc[room.id] = room.latestMessage;
    return acc; }, {})] *)
Definition formattedRooms (rooms : list Room) : gmap string (option string) :=
  foldl (λ acc room, assign (id room) (latestMessage room) acc) ∅ rooms.

Definition handleRoomsList (st : State) (rooms : list Room) : State * list Effect :=
  ({| activeRooms := formattedRooms rooms |}, []).

(** [{ ...prevActive, [roomId]: msg }] *)
Definition handleQuestion (st : State) (roomId msg : string) : State * list Effect :=
  ({| activeRooms := <[roomId := Some msg]> (activeRooms st) |}, []).

Definition handleGetRooms (st : State) : State * list Effect :=
  (st, [emit "getRooms" NoArgs]).

Definition handleRoomClick (roomId : string) : list Effect :=
  [navigate ("/chat/" +:+ roomId)].

Definition sendResponse (roomId : string) : list Effect :=
  [navigate ("/chat/" +:+ roomId)].

Definition deleteRoom (roomId : string) : list Effect :=
  [emit "deleteRoom" (Str roomId)].

(** Dispatch of one pushed event to the listeners the dashboard
    registers; an event without a listener is dropped. *)
Definition on (st : State) (ev : ServerEvent) : State * list Effect :=
  match ev with
  | roomsList rooms => handleRoomsList st rooms
  | question r msg => handleQuestion st r msg
  | getRooms => handleGetRooms st
  | chatHistory _ | response _ _ | roomDeleted _ | typing | stopTyping => (st, [])
  end.

(** The preview of the last entry of the list that carries room id [k]. *)
Definition listed_preview (k : string) (rooms : list Room) : option (option string) :=
  latestMessage <$> last (filter (λ room, id room = k) rooms).

(** Events are applied one at a time, in arrival order. *)
Fixpoint deliver (st : State) (evs : list ServerEvent) : State * list Effect :=
  match evs with
  | [] => (st, [])
  | ev :: evs' =>
      let '(st1, effs1) := on st ev in
      let '(st2, effs2) := deliver st1 evs' in
      (st2, effs1 ++ effs2)
  end.

(** The message of a question event for room [k]. *)
Definition asked_in (k : string) (ev : ServerEvent) : option string :=
  match ev with
  | question r msg => if decide (r = k) then Some msg else None
  | _ => None
  end.

End Responder.

(** ** Message deltas, as the chat view receives them *)

Inductive Delta :=
| asked (msg : string)
| answered (msg : string).

Definition delta_event (r : string) (d : Delta) : ServerEvent :=
  match d with
  | asked msg => question r msg
  | answered msg => response r msg
  end.

Definition delta_message (d : Delta) : Message :=
  match d with
  | asked msg => Msg "asker" msg
  | answered msg => Msg "responder" msg
  end.

#[global] Instance Room_eq_dec : EqDecision Room.
Proof. solve_decision. Defined.
#[global] Instance ServerEvent_eq_dec : EqDecision ServerEvent.
Proof. solve_decision. Defined.


(** Concrete sessions used in the examples. *)
Definition room1_session : Chat.State := (Chat.mount "room-1").1.

Definition room1_typed (text : string) : Chat.State :=
  (Chat.handleInputChange text room1_session).1.

(** ** The listener for [connect], registered once for the page

    [window.location.pathname.split("/").pop()] names the room to join;
    [pop] on an empty array would give [undefined], sent as no argument. *)
Definition onConnect (pathname : string) : list Effect :=
  [emit "joinRoom" (from_option Str NoArgs (last (JsString.split "/" pathname)))].

(** ** Vocabulary for statements about sequences of events *)

(** The messages a pushed event adds to the chat of a view bound to [r]. *)
Definition appended (r : string) (ev : ServerEvent) : list Message :=
  match ev with
  | question r' msg => if decide (r' = r) then [Msg "asker" msg] else []
  | response r' msg => if decide (r' = r) then [Msg "responder" msg] else []
  | _ => []
  end.

Definition is_chatHistory (ev : ServerEvent) : bool :=
  match ev with chatHistory _ => true | _ => false end.

Definition is_roomDeleted (ev : ServerEvent) : bool :=
  match ev with roomDeleted _ => true | _ => false end.

Definition is_roomsList (ev : ServerEvent) : bool :=
  match ev with roomsList _ => true | _ => false end.

Definition is_getRooms (ev : ServerEvent) : bool :=
  match ev with getRooms => true | _ => false end.

(** What a pushed event says about the typing indicator, if anything. *)
Definition typing_signal (ev : ServerEvent) : option bool :=
  match ev with
  | typing => Some true
  | stopTyping => Some false
  | _ => None
  end.

(** The room an emission is addressed to, when its payload names one. *)
Definition payload_room (p : Payload) : option string :=
  match p with
  | NoArgs => None
  | Str r => Some r
  | RoomOnly r => Some r
  | RoomMsg r _ => Some r
  end.

(** * Properties *)

(** ** Strings *)

Section JsStringFacts.
Import JsString.

Lemma trimStart_all_white_space s :
  all_white_space (trimStart s) = all_white_space s.
Proof.
  induction s as [|c s IH]; [done|].
  simpl. destruct (is_white_space c) eqn:Hc; simpl; [done|].
  by rewrite Hc.
Qed.

Lemma trimEnd_empty s : trimEnd s = "" ↔ all_white_space s = true.
Proof.
  induction s as [|c s IH]; [done|].
  simpl. destruct (trimEnd s) eqn:Ht.
  - destruct IH as [IH _]. rewrite IH by done.
    destruct (is_white_space c); simpl; split; congruence.
  - split; [done|]. intros [_ Hs]%andb_true_iff.
    apply IH in Hs. done.
Qed.

Lemma trim_empty s : trim s = "" ↔ all_white_space s = true.
Proof. unfold trim. by rewrite trimEnd_empty, trimStart_all_white_space. Qed.

Lemma truthy_nonempty s : truthy s = true ↔ s ≠ "".
Proof. destruct s; simpl; split; congruence. Qed.

Lemma truthy_trim_false s : trim s = "" → truthy (trim s) = false.
Proof. by intros ->. Qed.

Lemma truthy_trim_true s : trim s ≠ "" → truthy (trim s) = true.
Proof. apply truthy_nonempty. Qed.

Lemma append_cons c s t : String c s +:+ t = String c (s +:+ t).
Proof. reflexivity. Qed.

Lemma startsWith_spec s search :
  startsWith s search = true ↔ ∃ rest, s = search +:+ rest.
Proof.
  revert s. induction search as [|a search IH]; intros s.
  - destruct s; simpl; split; eauto.
  - destruct s as [|b s]; simpl.
    + split; [done|]. by intros [rest Hr].
    + destruct (decide (a = b)) as [Hab|Hab].
      * subst b. rewrite IH. split; intros [rest Hr]; exists rest.
        -- by rewrite append_cons, Hr.
        -- rewrite append_cons in Hr. by injection Hr.
      * split; [done|]. intros [rest Hr]. rewrite append_cons in Hr.
        injection Hr as Hb _. done.
Qed.

Lemma includes_nil search : includes "" search = startsWith "" search.
Proof. simpl. apply orb_false_r. Qed.

Lemma includes_cons c s search :
  includes (String c s) search = startsWith (String c s) search || includes s search.
Proof. reflexivity. Qed.

Lemma includes_spec s search :
  includes s search = true ↔ ∃ before after, s = before +:+ search +:+ after.
Proof.
  induction s as [|c s IH].
  - rewrite includes_nil, startsWith_spec. split.
    + intros [rest Hr]. by exists "", rest.
    + intros [before [after Hs]]. destruct before; [by exists after|done].
  - rewrite includes_cons, orb_true_iff, startsWith_spec, IH. split.
    + intros [[rest Hr]|[before [after Hs]]].
      * by exists "", rest.
      * exists (String c before), after. by rewrite append_cons, Hs.
    + intros [before [after Hs]]. destruct before as [|b before].
      * left. by exists after.
      * right. exists before, after. rewrite append_cons in Hs.
        by injection Hs.
Qed.

Example trim_inner_space : trim "  hi there " = "hi there".
Proof. reflexivity. Qed.

Example trim_blank : trim "   " = "".
Proof. reflexivity. Qed.

Example includes_chat_path : includes "/chat/room-1" "/chat/" = true.
Proof. reflexivity. Qed.

Example includes_user_path : includes "/user/room-1" "/chat/" = false.
Proof. reflexivity. Qed.

End JsStringFacts.

(** ** The chat view *)

Section ChatFacts.
Import JsString.

Lemma on_roomId st ev : Chat.roomId (Chat.on st ev).1 = Chat.roomId st.
Proof.
  destruct ev; simpl; try done;
    unfold Chat.handleQuestion, Chat.handleResponse; by case_decide.
Qed.

Lemma deliver_roomId st evs : Chat.roomId (Chat.deliver st evs).1 = Chat.roomId st.
Proof.
  revert st. induction evs as [|ev evs IH]; intros st; simpl; [done|].
  destruct (Chat.on st ev) as [st1 effs1] eqn:Hon.
  specialize (IH st1). destruct (Chat.deliver st1 evs) as [st2 effs2].
  simpl in *. rewrite IH. by rewrite <- (on_roomId st ev), Hon.
Qed.

Lemma deliver_cons st ev evs :
  Chat.deliver st (ev :: evs) =
    ((Chat.deliver (Chat.on st ev).1 evs).1,
     (Chat.on st ev).2 ++ (Chat.deliver (Chat.on st ev).1 evs).2).
Proof.
  simpl. destruct (Chat.on st ev) as [st1 effs1]. simpl.
  by destruct (Chat.deliver st1 evs) as [st2 effs2].
Qed.

Lemma deliver_app st evs1 evs2 :
  Chat.deliver st (evs1 ++ evs2) =
    ((Chat.deliver (Chat.deliver st evs1).1 evs2).1,
     (Chat.deliver st evs1).2 ++ (Chat.deliver (Chat.deliver st evs1).1 evs2).2).
Proof.
  revert st. induction evs1 as [|ev evs1 IH]; intros st.
  - simpl. by destruct (Chat.deliver st evs2).
  - rewrite <- app_comm_cons, !deliver_cons, IH. simpl. by rewrite app_assoc.
Qed.

Lemma on_delta st d :
  Chat.on st (delta_event (Chat.roomId st) d) =
    (Chat.setChat (Chat.chat st ++ [delta_message d]) st, [scrollIntoView]).
Proof.
  destruct d; simpl; unfold Chat.handleQuestion, Chat.handleResponse;
    by case_decide.
Qed.

Lemma navigations_app effs1 effs2 :
  navigations (effs1 ++ effs2) = navigations effs1 ++ navigations effs2.
Proof.
  induction effs1 as [|[] effs1 IH]; simpl; by rewrite ?IH.
Qed.

Lemma sendMessage_blank pathname st :
  trim (Chat.message st) = "" →
  Chat.sendMessage pathname st = (st, [preventDefault]).
Proof. intros H. unfold Chat.sendMessage. by rewrite truthy_trim_false. Qed.

Lemma sendMessage_nonblank pathname st :
  trim (Chat.message st) ≠ "" →
  Chat.sendMessage pathname st =
    (Chat.setMessage "" st,
     [preventDefault;
      emit (if includes pathname "/chat/" then "response" else "question")
           (RoomMsg (Chat.roomId st) (Chat.message st));
      emit "stopTyping" (RoomOnly (Chat.roomId st))]).
Proof.
  intros H. unfold Chat.sendMessage. rewrite truthy_trim_true by done.
  by destruct (includes pathname "/chat/").
Qed.

(** C1: when the pending input trims to the empty string, submitting the
    form emits nothing on the socket and leaves the whole state of the
    view, the chat and the pending input included, as it was; a question
    or response event is emitted if and only if the trimmed input is not
    empty. *)
Theorem sendMessage_emits_iff_nonblank pathname st :
  (trim (Chat.message st) = "" →
     Chat.sendMessage pathname st = (st, [preventDefault]) ∧
     emissions (Chat.sendMessage pathname st).2 = []) ∧
  (existsb is_send (emissions (Chat.sendMessage pathname st).2) = true
     ↔ trim (Chat.message st) ≠ "") ∧
  Chat.chat (Chat.sendMessage pathname st).1 = Chat.chat st.
Proof.
  split; [|split].
  - intros H. by rewrite sendMessage_blank.
  - destruct (decide (trim (Chat.message st) = "")) as [H|H].
    + rewrite sendMessage_blank by done. simpl. split; [done|]. by intros [].
    + rewrite sendMessage_nonblank by done. split; [done|]. intros _.
      simpl. by destruct (includes pathname "/chat/").
  - destruct (decide (trim (Chat.message st) = "")) as [H|H].
    + by rewrite sendMessage_blank.
    + by rewrite sendMessage_nonblank.
Qed.

Lemma sendMessage_emits_iff_nonblank_witness :
  trim (Chat.message (room1_typed "   ")) = "" ∧
  Chat.sendMessage "/user/room-1" (room1_typed "   ")
    = (room1_typed "   ", [preventDefault]).
Proof.
  split; [reflexivity|].
  apply (proj1 (sendMessage_emits_iff_nonblank "/user/room-1" (room1_typed "   "))).
  reflexivity.
Defined.

(** C2: a sequence of question/response events received for the bound
    room is applied in arrival order, each event appending exactly one
    message at the end of the chat; the messages held before keep their
    places, and nothing is reordered, dropped or merged. *)
Theorem deliver_deltas_appends_in_order st ds :
  Chat.chat (Chat.deliver st (map (delta_event (Chat.roomId st)) ds)).1
    = Chat.chat st ++ map delta_message ds ∧
  length (Chat.chat (Chat.deliver st (map (delta_event (Chat.roomId st)) ds)).1)
    = length (Chat.chat st) + length ds ∧
  ∀ d, Chat.chat (Chat.on st (delta_event (Chat.roomId st) d)).1
         = Chat.chat st ++ [delta_message d].
Proof.
  assert (Chat.chat (Chat.deliver st (map (delta_event (Chat.roomId st)) ds)).1
          = Chat.chat st ++ map delta_message ds) as Heq.
  { revert st. induction ds as [|d ds IH]; intros st.
    - simpl. by rewrite app_nil_r.
    - rewrite map_cons, deliver_cons, on_delta. simpl.
      specialize (IH (Chat.setChat (Chat.chat st ++ [delta_message d]) st)).
      simpl in IH. rewrite IH. by rewrite <- app_assoc. }
  split; [done|]. split.
  - by rewrite Heq, length_app, length_map.
  - intros d. by rewrite on_delta.
Qed.





(** The listener for [roomDeleted] does not compare the room id of the
    notification with the bound room. *)
Lemma handleRoomDeleted_any_room st r :
  navigations (Chat.on st (roomDeleted r)).2 = ["/"].
Proof. reflexivity. Qed.

(** C4: for a send whose trimmed input is not empty, the event emitted
    is chosen by the path alone: [response] when the path contains
    "/chat/", [question] otherwise; exactly one of the two is emitted,
    carrying the bound room and the input as typed. *)
Theorem sendMessage_event_from_pathname pathname st :
  trim (Chat.message st) ≠ "" →
  filter is_send (emissions (Chat.sendMessage pathname st).2) =
    [(if includes pathname "/chat/" then "response" else "question",
      RoomMsg (Chat.roomId st) (Chat.message st))].
Proof.
  intros H. rewrite sendMessage_nonblank by done.
  by destruct (includes pathname "/chat/").
Qed.

Lemma sendMessage_event_from_pathname_witness :
  trim (Chat.message (room1_typed " hello ")) ≠ "" ∧
  filter is_send
    (emissions (Chat.sendMessage "/chat/room-1" (room1_typed " hello ")).2)
    = [("response", RoomMsg "room-1" " hello ")].
Proof.
  split; [done|].
  apply (sendMessage_event_from_pathname "/chat/room-1" (room1_typed " hello ")).
  done.
Defined.

(** C5: a history snapshot makes the chat exactly the list of messages
    it carries, whatever the chat held before; the other cells of the
    state are not touched. *)
Theorem chatHistory_replaces_chat st messages :
  Chat.chat (Chat.on st (chatHistory messages)).1 = messages ∧
  Chat.roomId (Chat.on st (chatHistory messages)).1 = Chat.roomId st ∧
  Chat.message (Chat.on st (chatHistory messages)).1 = Chat.message st ∧
  Chat.isTyping (Chat.on st (chatHistory messages)).1 = Chat.isTyping st.
Proof. done. Qed.

(** C6: a send whose trimmed input is not empty emits two events, the
    question or response and, straight after it, [stopTyping] for the
    bound room. *)
Theorem sendMessage_then_stopTyping pathname st :
  trim (Chat.message st) ≠ "" →
  ∃ e, is_send e = true ∧
       emissions (Chat.sendMessage pathname st).2
         = [e; ("stopTyping", RoomOnly (Chat.roomId st))].
Proof.
  intros H. rewrite sendMessage_nonblank by done.
  eexists. split; [|reflexivity]. by destruct (includes pathname "/chat/").
Qed.

Lemma sendMessage_then_stopTyping_witness :
  trim (Chat.message (room1_typed "hi there")) ≠ "" ∧
  ∃ e, is_send e = true ∧
       emissions (Chat.sendMessage "/user/room-1" (room1_typed "hi there")).2
         = [e; ("stopTyping", RoomOnly "room-1")].
Proof.
  split; [done|].
  apply (sendMessage_then_stopTyping "/user/room-1" (room1_typed "hi there")).
  done.
Defined.

(** C9: the listener for [chatHistory] replaces the chat with the
    payload without any test: the payload names no room and the bound
    room is not read, so the chat becomes the payload whichever room the
    view is bound to, also after the view was rebound to another room. *)
Theorem chatHistory_unconditional st messages :
  Chat.on st (chatHistory messages) = (Chat.setChat messages st, [scrollIntoView]) ∧
  ∀ r, Chat.chat (Chat.on (Chat.rebind r st).1 (chatHistory messages)).1 = messages ∧
       Chat.roomId (Chat.on (Chat.rebind r st).1 (chatHistory messages)).1 = r.
Proof. done. Qed.

(** C10: a question or response event whose room id differs from the
    bound room changes nothing: the state is returned as it was and no
    effect is performed. *)
Theorem foreign_delta_ignored st r msg :
  r ≠ Chat.roomId st →
  Chat.on st (question r msg) = (st, []) ∧
  Chat.on st (response r msg) = (st, []).
Proof.
  intros H. simpl. unfold Chat.handleQuestion, Chat.handleResponse.
  by case_decide.
Qed.

Lemma foreign_delta_ignored_witness :
  "room-2" ≠ Chat.roomId room1_session ∧
  Chat.on room1_session (question "room-2" "hello") = (room1_session, []) ∧
  Chat.on room1_session (response "room-2" "hello") = (room1_session, []).
Proof.
  split; [done|].
  apply (foreign_delta_ignored room1_session "room-2" "hello"). done.
Defined.

(** An asker's view of room-1: the history arrives, a question for
    another room is dropped, the echo of the asker's question and the
    responder's answer are appended in the order received. *)
Example room1_conversation :
  Chat.chat (Chat.deliver room1_session
               [chatHistory []; question "room-2" "elsewhere";
                question "room-1" "hello"; typing;
                response "room-1" "hi there"; stopTyping]).1
    = [Msg "asker" "hello"; Msg "responder" "hi there"].
Proof. reflexivity. Qed.

End ChatFacts.

(** ** The responder dashboard *)

Section ResponderFacts.

Lemma foldl_assign_lookup (rooms : list Room) (acc : gmap string (option string)) k :
  foldl (λ acc room, Responder.assign (id room) (latestMessage room) acc) acc rooms !! k =
    if decide (k = "__proto__") then acc !! k
    else match Responder.listed_preview k rooms with
         | Some preview => Some preview
         | None => acc !! k
         end.
Proof.
  revert acc. unfold Responder.listed_preview.
  induction rooms as [|room rooms IH]; intros acc; [by case_decide|].
  simpl. rewrite IH. unfold Responder.assign.
  destruct (decide (k = "__proto__")) as [Hproto|Hproto].
  - case_decide as Hid; [done|]. rewrite lookup_insert_ne; [done|congruence].
  - rewrite filter_cons. destruct (decide (id room = k)) as [Hk|Hk].
    + rewrite decide_False by congruence. rewrite last_cons.
      destruct (last (filter (λ room0, id room0 = k) rooms)) as [room'|]; simpl; [done|].
      by rewrite <- Hk, lookup_insert_eq.
    + destruct (last (filter (λ room0, id room0 = k) rooms)) as [room'|]; simpl; [done|].
      case_decide; [done|]. by rewrite lookup_insert_ne.
Qed.

Lemma formattedRooms_lookup rooms k :
  Responder.formattedRooms rooms !! k =
    if decide (k = "__proto__") then None else Responder.listed_preview k rooms.
Proof.
  unfold Responder.formattedRooms. rewrite foldl_assign_lookup, lookup_empty.
  case_decide; [done|]. by destruct (Responder.listed_preview k rooms).
Qed.

Lemma formattedRooms_dom rooms :
  dom (Responder.formattedRooms rooms)
    = list_to_set (filter (λ k, k ≠ "__proto__") (id <$> rooms)).
Proof.
  unfold Responder.formattedRooms.
  assert (∀ acc : gmap string (option string),
    dom (foldl (λ acc room, Responder.assign (id room) (latestMessage room) acc)
               acc rooms)
      = list_to_set (filter (λ k, k ≠ "__proto__") (id <$> rooms)) ∪ dom acc)
    as Hgen.
  { induction rooms as [|room rooms IH]; intros acc; simpl.
    - by rewrite (left_id_L ∅ (∪)).
    - rewrite IH, filter_cons. unfold Responder.assign.
      destruct (decide (id room = "__proto__")) as [Hid|Hid].
      + by rewrite decide_False by (by intros []).
      + rewrite decide_True by done. simpl.
        rewrite dom_insert_L, (assoc_L (∪)).
        by rewrite (comm_L (∪) _ {[id room]}). }
  by rewrite Hgen, dom_empty_L, (right_id_L ∅ (∪)).
Qed.

(** X23: What a rooms list leaves in the directory, whatever it held
    before: for every id but "__proto__", the preview of the last entry
    listing the id, and no entry for an id that is not listed; under
    "__proto__", nothing. *)
Theorem roomsList_directory st rooms :
  Responder.activeRooms (Responder.on st (roomsList rooms)).1
    = Responder.formattedRooms rooms ∧
  (∀ k, k ≠ "__proto__" →
     Responder.activeRooms (Responder.on st (roomsList rooms)).1 !! k
       = Responder.listed_preview k rooms) ∧
  Responder.activeRooms (Responder.on st (roomsList rooms)).1 !! "__proto__" = None.
Proof.
  simpl. split; [done|]. split.
  - intros k Hk. by rewrite formattedRooms_lookup, decide_False.
  - by rewrite formattedRooms_lookup.
Qed.

Lemma roomsList_directory_witness :
  "room-1" ≠ "__proto__" ∧
  Responder.activeRooms
    (Responder.on Responder.mount.1
       (roomsList [{| id := "room-1"; latestMessage := Some "old" |};
                   {| id := "room-1"; latestMessage := Some "new" |}])).1 !! "room-1"
    = Responder.listed_preview "room-1"
        [{| id := "room-1"; latestMessage := Some "old" |};
         {| id := "room-1"; latestMessage := Some "new" |}].
Proof.
  split; [done|].
  apply (proj1 (proj2 (roomsList_directory Responder.mount.1
           [{| id := "room-1"; latestMessage := Some "old" |};
            {| id := "room-1"; latestMessage := Some "new" |}]))).
  done.
Defined.

(** C7: the directory starts empty and a rooms list replaces it, but not
    by the mapping of every listed id: a room listed under the id
    "__proto__" gets no entry, because [acc[room.id] = ...] does not
    store under that name.  The question listener, which builds the
    object with a computed key, does create the entry for the same id. *)
Theorem roomsList_drops_proto_room :
  Responder.activeRooms Responder.mount.1 = ∅ ∧
  Responder.listed_preview "__proto__"
    [{| id := "__proto__"; latestMessage := Some "hello" |}] = Some (Some "hello") ∧
  Responder.activeRooms
    (Responder.on Responder.mount.1
       (roomsList [{| id := "__proto__"; latestMessage := Some "hello" |}])).1 = ∅ ∧
  (∀ st rooms,
     Responder.activeRooms (Responder.on st (roomsList rooms)).1 !! "__proto__" = None) ∧
  Responder.activeRooms
    (Responder.on Responder.mount.1 (question "__proto__" "hello")).1 !! "__proto__"
    = Some (Some "hello").
Proof.
  split; [done|]. split; [done|]. split; [done|]. split; [|done].
  intros st rooms. simpl. by rewrite formattedRooms_lookup.
Qed.

(** C8: a question event for a room the directory does not hold adds
    the room with the message as its preview; for a room it holds, the
    preview is replaced; the entries of all other rooms stay as they
    were.  A deletion notification has no listener on the dashboard and
    the [getRooms] event only asks for a new rooms list, so neither
    changes the directory, for a known room or an unknown one. *)
Theorem question_upserts_directory st r msg :
  Responder.activeRooms (Responder.on st (question r msg)).1 !! r = Some (Some msg) ∧
  (Responder.activeRooms st !! r = None →
     size (Responder.activeRooms (Responder.on st (question r msg)).1)
       = S (size (Responder.activeRooms st))) ∧
  (is_Some (Responder.activeRooms st !! r) →
     dom (Responder.activeRooms (Responder.on st (question r msg)).1)
       = dom (Responder.activeRooms st)) ∧
  (∀ k, k ≠ r →
     Responder.activeRooms (Responder.on st (question r msg)).1 !! k
       = Responder.activeRooms st !! k) ∧
  (∀ r', Responder.on st (roomDeleted r') = (st, [])) ∧
  Responder.on st getRooms = (st, [emit "getRooms" NoArgs]).
Proof.
  simpl. repeat split.
  - apply lookup_insert_eq.
  - intros H. by apply map_size_insert_None.
  - intros H. rewrite dom_insert_L. apply elem_of_dom in H.
    apply (anti_symm (⊆)).
    + apply union_least; [by apply singleton_subseteq_l|done].
    + apply union_subseteq_r.
  - intros k Hk. by apply lookup_insert_ne.
Qed.

Lemma question_upserts_directory_witness :
  (Responder.activeRooms Responder.mount.1 !! "room-1" = None ∧
   size (Responder.activeRooms
           (Responder.on Responder.mount.1 (question "room-1" "hello")).1) = 1) ∧
  ("room-2" ≠ "room-1" ∧
   Responder.activeRooms
     (Responder.on Responder.mount.1 (question "room-1" "hello")).1 !! "room-2" = None) ∧
  (is_Some (Responder.activeRooms
              (Responder.on Responder.mount.1 (question "room-1" "hello")).1 !! "room-1") ∧
   dom (Responder.activeRooms
          (Responder.on (Responder.on Responder.mount.1 (question "room-1" "hello")).1
                        (question "room-1" "hello again")).1)
     = dom (Responder.activeRooms
              (Responder.on Responder.mount.1 (question "room-1" "hello")).1)).
Proof.
  pose proof (question_upserts_directory Responder.mount.1 "room-1" "hello")
    as (_ & Hnew & _ & Hother & _).
  pose proof (question_upserts_directory
                (Responder.on Responder.mount.1 (question "room-1" "hello")).1
                "room-1" "hello again")
    as (_ & _ & Hold & _).
  split; [|split].
  - split; [done|]. apply Hnew. done.
  - split; [done|]. apply Hother. done.
  - split; [by eexists|]. apply Hold. by eexists.
Defined.

Example directory_after_snapshot_and_question :
  Responder.activeRooms
    (Responder.on
       (Responder.on Responder.mount.1
          (roomsList [{| id := "room-1"; latestMessage := Some "hello" |};
                      {| id := "room-2"; latestMessage := None |}])).1
       (question "room-2" "anyone?")).1
    = {[ "room-1" := Some "hello"; "room-2" := Some "anyone?" ]}.
Proof. apply map_eq. intros k. by vm_compute. Qed.

End ResponderFacts.

(** * Further properties *)

(** ** Joining a room on connection *)

Section ConnectFacts.
Import JsString.

Lemma append_assoc (a b c : string) : (a +:+ b) +:+ c = a +:+ b +:+ c.
Proof. induction a as [|x a IH]; [done|]. by rewrite !append_cons, IH. Qed.

Lemma split_nonempty sep s : split sep s ≠ [].
Proof.
  destruct s as [|c s]; simpl; [done|].
  case_decide; [done|]. by destruct (split sep s).
Qed.

Lemma split_cons_ne sep c s :
  c ≠ sep →
  ∃ piece pieces, split sep s = piece :: pieces ∧
                  split sep (String c s) = String c piece :: pieces.
Proof.
  intros Hc. simpl. rewrite decide_False by done.
  destruct (split sep s) as [|piece pieces] eqn:Hs.
  - by destruct (split_nonempty sep s).
  - by exists piece, pieces.
Qed.

Lemma split_app_sep sep a b :
  split sep (a +:+ String sep b) = split sep a ++ split sep b.
Proof.
  induction a as [|c a IH].
  - change ("" +:+ String sep b) with (String sep b). simpl.
    by rewrite decide_True.
  - rewrite append_cons. destruct (decide (c = sep)) as [->|Hc].
    + simpl. rewrite !decide_True by done. by rewrite IH.
    + destruct (split_cons_ne sep c a Hc) as (piece & pieces & Ha & ->).
      destruct (split_cons_ne sep c (a +:+ String sep b) Hc)
        as (piece' & pieces' & Hab & ->).
      rewrite IH, Ha in Hab. simpl in Hab. by injection Hab as <- <-.
Qed.

Lemma includes_char_cons sep c s :
  includes (String c s) (String sep "") = false ↔
  c ≠ sep ∧ includes s (String sep "") = false.
Proof.
  rewrite includes_cons. simpl. destruct (decide (sep = c)) as [->|Hc].
  - destruct s; simpl; split; try done; by intros [].
  - simpl. split; [by intros ->|by intros [_ ->]].
Qed.

Lemma split_without_sep sep s :
  includes s (String sep "") = false → split sep s = [s].
Proof.
  induction s as [|c s IH]; [done|].
  intros [Hc Hs]%includes_char_cons. simpl.
  rewrite decide_False by done. by rewrite IH.
Qed.

Lemma split_pieces_without_sep sep s :
  Forall (λ piece, includes piece (String sep "") = false) (split sep s).
Proof.
  induction s as [|c s IH]; simpl.
  - by repeat constructor.
  - case_decide as Hc.
    + constructor; [done|apply IH].
    + destruct (split sep s) as [|piece pieces].
      * constructor; [|done]. by apply includes_char_cons.
      * inversion IH; subst. constructor; [|done]. by apply includes_char_cons.
Qed.

(** Splitting and joining on the same separator gives the string back. *)
Lemma join_split sep s : join sep (split sep s) = s.
Proof.
  induction s as [|c s IH]; [done|]. simpl. case_decide as Hc.
  - subst c. destruct (split sep s) as [|piece pieces] eqn:Hs.
    + by destruct (split_nonempty sep s).
    + change (join sep ("" :: piece :: pieces))
        with ("" +:+ String sep (join sep (piece :: pieces))).
      by rewrite IH.
  - destruct (split sep s) as [|piece pieces] eqn:Hs.
    + by destruct (split_nonempty sep s).
    + destruct pieces as [|piece' pieces].
      * simpl in *. by rewrite IH.
      * change (join sep (String c piece :: piece' :: pieces))
          with (String c piece +:+ String sep (join sep (piece' :: pieces))).
        rewrite append_cons. f_equal. exact IH.
Qed.

(** X1: On connection the page always asks to join a room, and the room id it
    sends is the part of the path after the last "/": the id holds no
    "/", and the path is the id itself or ends in "/" followed by the
    id. *)
Theorem onConnect_joins_last_segment pathname :
  ∃ r, onConnect pathname = [emit "joinRoom" (Str r)] ∧
       includes r "/" = false ∧
       (pathname = r ∨ ∃ prefix, pathname = prefix +:+ "/" +:+ r).
Proof.
  unfold onConnect.
  pose proof (join_split "/" pathname) as Hjoin.
  pose proof (split_pieces_without_sep "/" pathname) as Hfree.
  destruct (split "/" pathname) as [|piece pieces] eqn:Hs.
  { by destruct (split_nonempty "/" pathname). }
  clear Hs. revert piece pathname Hjoin Hfree.
  induction pieces as [|piece' pieces IH]; intros piece pathname Hjoin Hfree.
  - exists piece. simpl in *. inversion Hfree; subst. eauto.
  - change (join "/" (piece :: piece' :: pieces))
      with (piece +:+ String "/" (join "/" (piece' :: pieces))) in Hjoin.
    inversion Hfree as [|? ? _ Hfree']; subst.
    destruct (IH piece' (join "/" (piece' :: pieces)) eq_refl Hfree')
      as (r & Hr & Hslash & Hpath).
    exists r. rewrite last_cons_cons. split; [done|]. split; [done|].
    right. destruct Hpath as [Hpath|[prefix Hpath]].
    + exists piece. by rewrite Hpath.
    + exists (piece +:+ "/" +:+ prefix). rewrite Hpath.
      by rewrite !append_assoc.
Qed.

(** X2: The room joined on connection at a path that ends in "/" followed by
    a segment without "/" is that segment, as the path spells it: at
    [/responder] it is a room named "responder". *)
Theorem onConnect_joins_route_room prefix r :
  includes r "/" = false →
  onConnect (prefix +:+ "/" +:+ r) = [emit "joinRoom" (Str r)].
Proof.
  intros Hr. unfold onConnect.
  change (prefix +:+ "/" +:+ r) with (prefix +:+ String "/" r).
  rewrite split_app_sep, (split_without_sep "/" r Hr).
  by rewrite last_snoc.
Qed.

Lemma onConnect_joins_route_room_witness :
  includes "room-1" "/" = false ∧
  onConnect ("/user" +:+ "/" +:+ "room-1") = [emit "joinRoom" (Str "room-1")].
Proof.
  split; [reflexivity|].
  apply (onConnect_joins_route_room "/user" "room-1"). reflexivity.
Defined.

Example onConnect_on_dashboard :
  onConnect "/responder" = [emit "joinRoom" (Str "responder")].
Proof. reflexivity. Qed.

Example onConnect_at_root : onConnect "/" = [emit "joinRoom" (Str "")].
Proof. reflexivity. Qed.

End ConnectFacts.

(** ** The chat view over sequences of pushed events *)

Section ChatDeliveryFacts.
Import JsString.

Lemma emissions_app effs1 effs2 :
  emissions (effs1 ++ effs2) = emissions effs1 ++ emissions effs2.
Proof. induction effs1 as [|[] effs1 IH]; simpl; by rewrite ?IH. Qed.

Lemma on_chat st ev :
  is_chatHistory ev = false →
  Chat.chat (Chat.on st ev).1 = Chat.chat st ++ appended (Chat.roomId st) ev.
Proof.
  intros Hev. destruct ev; simpl in *; try done; try by rewrite app_nil_r.
  - unfold Chat.handleQuestion. case_decide; simpl; [done|by rewrite app_nil_r].
  - unfold Chat.handleResponse. case_decide; simpl; [done|by rewrite app_nil_r].
Qed.

Lemma deliver_chat_history_free st evs :
  Forall (λ ev, is_chatHistory ev = false) evs →
  Chat.chat (Chat.deliver st evs).1
    = Chat.chat st ++ (evs ≫= appended (Chat.roomId st)).
Proof.
  intros Hevs. revert st.
  induction Hevs as [|ev evs Hev _ IH]; intros st.
  - simpl. by rewrite app_nil_r.
  - rewrite deliver_cons. cbn [fst]. rewrite IH, on_roomId, on_chat by done.
    by rewrite <- app_assoc.
Qed.

(** X3: While the view stays mounted (no deletion notification arrives)
    and no history snapshot arrives, pushed events only ever add to the
    end of the chat: whatever else is interleaved (typing signals, events
    of other rooms, events the view does not listen to), the chat
    afterwards is the chat before followed by the questions and responses
    of the bound room, in arrival order. *)
Theorem deliver_without_snapshot st evs :
  Forall (λ ev, is_roomDeleted ev = false) evs →
  Forall (λ ev, is_chatHistory ev = false) evs →
  Chat.chat (Chat.deliver st evs).1
    = Chat.chat st ++ (evs ≫= appended (Chat.roomId st)).
Proof. intros _. apply deliver_chat_history_free. Qed.

Lemma deliver_without_snapshot_witness :
  Forall (λ ev, is_roomDeleted ev = false)
         [question "room-2" "elsewhere"; question "room-1" "hello"; typing;
          getRooms; response "room-1" "hi there"] ∧
  Forall (λ ev, is_chatHistory ev = false)
         [question "room-2" "elsewhere"; question "room-1" "hello"; typing;
          getRooms; response "room-1" "hi there"] ∧
  Chat.chat (Chat.deliver room1_session
               [question "room-2" "elsewhere"; question "room-1" "hello"; typing;
                getRooms; response "room-1" "hi there"]).1
    = Chat.chat room1_session ++
      ([question "room-2" "elsewhere"; question "room-1" "hello"; typing;
        getRooms; response "room-1" "hi there"]
         ≫= appended (Chat.roomId room1_session)).
Proof.
  assert (Forall (λ ev, is_roomDeleted ev = false)
            [question "room-2" "elsewhere"; question "room-1" "hello"; typing;
             getRooms; response "room-1" "hi there"]) as Hd.
  { by repeat constructor. }
  assert (Forall (λ ev, is_chatHistory ev = false)
            [question "room-2" "elsewhere"; question "room-1" "hello"; typing;
             getRooms; response "room-1" "hi there"]) as Hh.
  { by repeat constructor. }
  split; [exact Hd|]. split; [exact Hh|].
  exact (deliver_without_snapshot room1_session _ Hd Hh).
Defined.

(** X4: While the view stays mounted (no deletion notification arrives),
    a history snapshot wipes what came before it: the chat after a
    snapshot and further snapshot-free events is the snapshot followed by
    the questions and responses of the bound room received after it; the
    chat held before and every event received before the snapshot leave
    no trace. *)
Theorem deliver_after_snapshot st before messages after :
  Forall (λ ev, is_roomDeleted ev = false) (before ++ after) →
  Forall (λ ev, is_chatHistory ev = false) after →
  Chat.chat (Chat.deliver st (before ++ chatHistory messages :: after)).1
    = messages ++ (after ≫= appended (Chat.roomId st)).
Proof.
  intros _ Hafter. rewrite deliver_app. cbn [fst].
  rewrite deliver_cons. cbn [fst].
  rewrite deliver_chat_history_free by done.
  by rewrite on_roomId, deliver_roomId.
Qed.

Lemma deliver_after_snapshot_witness :
  Forall (λ ev, is_roomDeleted ev = false)
         ([question "room-1" "lost"] ++ [response "room-1" "hi there"]) ∧
  Forall (λ ev, is_chatHistory ev = false) [response "room-1" "hi there"] ∧
  Chat.chat (Chat.deliver room1_session
               ([question "room-1" "lost"] ++
                chatHistory [Msg "asker" "hello"] :: [response "room-1" "hi there"])).1
    = [Msg "asker" "hello"] ++
      ([response "room-1" "hi there"] ≫= appended (Chat.roomId room1_session)).
Proof.
  assert (Forall (λ ev, is_roomDeleted ev = false)
            ([question "room-1" "lost"] ++ [response "room-1" "hi there"])) as Hd.
  { by repeat constructor. }
  assert (Forall (λ ev, is_chatHistory ev = false) [response "room-1" "hi there"])
    as Hh by (by repeat constructor).
  split; [exact Hd|]. split; [exact Hh|].
  exact (deliver_after_snapshot room1_session [question "room-1" "lost"]
           [Msg "asker" "hello"] _ Hd Hh).
Defined.

Lemma on_isTyping st ev :
  Chat.isTyping (Chat.on st ev).1 = default (Chat.isTyping st) (typing_signal ev).
Proof.
  destruct ev; simpl; try done;
    unfold Chat.handleQuestion, Chat.handleResponse; by case_decide.
Qed.

Lemma deliver_isTyping st evs :
  Chat.isTyping (Chat.deliver st evs).1
    = default (Chat.isTyping st) (last (omap typing_signal evs)).
Proof.
  revert st. induction evs as [|ev evs IH]; intros st; [done|].
  rewrite deliver_cons. cbn [fst]. rewrite IH, on_isTyping.
  destruct (typing_signal ev) as [b|] eqn:Hev.
  - replace (omap typing_signal (ev :: evs)) with (b :: omap typing_signal evs)
      by (simpl; by rewrite Hev).
    rewrite last_cons. by destruct (last (omap typing_signal evs)).
  - replace (omap typing_signal (ev :: evs)) with (omap typing_signal evs)
      by (simpl; by rewrite Hev).
    done.
Qed.

(** X5: While the view stays mounted (no deletion notification arrives),
    the typing indicator follows the last typing or stop-typing signal
    received, whatever room the signal was meant for; questions,
    responses and history snapshots do not touch it, so a message that
    arrives does not clear it. *)
Theorem isTyping_follows_last_signal st evs :
  Forall (λ ev, is_roomDeleted ev = false) evs →
  Chat.isTyping (Chat.deliver st evs).1
    = default (Chat.isTyping st) (last (omap typing_signal evs)).
Proof. intros _. apply deliver_isTyping. Qed.

Lemma isTyping_follows_last_signal_witness :
  Forall (λ ev, is_roomDeleted ev = false)
         [stopTyping; typing; response "room-1" "hi there"] ∧
  Chat.isTyping (Chat.deliver room1_session
                   [stopTyping; typing; response "room-1" "hi there"]).1
    = default (Chat.isTyping room1_session)
        (last (omap typing_signal [stopTyping; typing; response "room-1" "hi there"])).
Proof.
  assert (Forall (λ ev, is_roomDeleted ev = false)
            [stopTyping; typing; response "room-1" "hi there"]) as Hd.
  { by repeat constructor. }
  split; [exact Hd|].
  exact (isTyping_follows_last_signal room1_session _ Hd).
Defined.

Lemma deliver_frame st evs :
  emissions (Chat.deliver st evs).2 = [] ∧
  Chat.message (Chat.deliver st evs).1 = Chat.message st ∧
  Chat.roomId (Chat.deliver st evs).1 = Chat.roomId st.
Proof.
  revert st. induction evs as [|ev evs IH]; intros st; [done|].
  rewrite deliver_cons. cbn [fst snd].
  destruct (IH (Chat.on st ev).1) as (Hemit & Hmsg & Hroom).
  rewrite emissions_app, Hemit, Hmsg, Hroom, on_roomId.
  destruct ev; simpl; try done;
    unfold Chat.handleQuestion, Chat.handleResponse; by case_decide.
Qed.

(** X6: While the view stays mounted (no deletion notification arrives),
    pushed events never make it emit anything on the socket, never change
    the pending input and never change the room it is bound to. *)
Theorem deliver_is_silent st evs :
  Forall (λ ev, is_roomDeleted ev = false) evs →
  emissions (Chat.deliver st evs).2 = [] ∧
  Chat.message (Chat.deliver st evs).1 = Chat.message st ∧
  Chat.roomId (Chat.deliver st evs).1 = Chat.roomId st.
Proof. intros _. apply deliver_frame. Qed.

Lemma deliver_is_silent_witness :
  Forall (λ ev, is_roomDeleted ev = false)
         [chatHistory [Msg "asker" "hello"]; typing; response "room-1" "hi there"] ∧
  emissions (Chat.deliver (room1_typed "draft")
               [chatHistory [Msg "asker" "hello"]; typing;
                response "room-1" "hi there"]).2 = [] ∧
  Chat.message (Chat.deliver (room1_typed "draft")
                  [chatHistory [Msg "asker" "hello"]; typing;
                   response "room-1" "hi there"]).1
    = Chat.message (room1_typed "draft") ∧
  Chat.roomId (Chat.deliver (room1_typed "draft")
                 [chatHistory [Msg "asker" "hello"]; typing;
                  response "room-1" "hi there"]).1
    = Chat.roomId (room1_typed "draft").
Proof.
  assert (Forall (λ ev, is_roomDeleted ev = false)
            [chatHistory [Msg "asker" "hello"]; typing; response "room-1" "hi there"])
    as Hd.
  { by repeat constructor. }
  split; [exact Hd|].
  exact (deliver_is_silent (room1_typed "draft") _ Hd).
Defined.

(** X7: The view calls [navigate "/"] once for every deletion notification
    among the events it receives, whichever room each one names, and for
    nothing else. *)
Theorem navigations_count_deletions st evs :
  navigations (Chat.deliver st evs).2
    = replicate (length (filter (λ ev, is_roomDeleted ev = true) evs)) "/".
Proof.
  revert st. induction evs as [|ev evs IH]; intros st; [done|].
  rewrite deliver_cons. cbn [snd]. rewrite navigations_app, IH.
  destruct ev; simpl; try done;
    unfold Chat.handleQuestion, Chat.handleResponse; by case_decide.
Qed.

End ChatDeliveryFacts.

(** ** The chat view over pushed events, typing and submits *)

Section ChatRunFacts.
Import JsString.

Lemma run_cons st i inputs :
  Chat.run st (i :: inputs) =
    ((Chat.run (Chat.step st i).1 inputs).1,
     (Chat.step st i).2 ++ (Chat.run (Chat.step st i).1 inputs).2).
Proof.
  simpl. destruct (Chat.step st i) as [st1 effs1]. simpl.
  by destruct (Chat.run st1 inputs) as [st2 effs2].
Qed.

Lemma setMessage_same st : Chat.setMessage (Chat.message st) st = st.
Proof. by destruct st. Qed.

Lemma sendMessage_state pathname st :
  (Chat.sendMessage pathname st).1 = Chat.setMessage "" st ∨
  (Chat.sendMessage pathname st).1 = st.
Proof.
  destruct (decide (trim (Chat.message st) = "")) as [H|H].
  - right. by rewrite sendMessage_blank.
  - left. by rewrite sendMessage_nonblank.
Qed.

Lemma step_roomId st i : Chat.roomId (Chat.step st i).1 = Chat.roomId st.
Proof.
  destruct i as [ev|value|pathname]; simpl.
  - apply on_roomId.
  - done.
  - by destruct (sendMessage_state pathname st) as [-> | ->].
Qed.

Lemma on_setMessage m st ev :
  Chat.on (Chat.setMessage m st) ev
    = (Chat.setMessage m (Chat.on st ev).1, (Chat.on st ev).2).
Proof.
  destruct ev; simpl; try done;
    unfold Chat.handleQuestion, Chat.handleResponse; simpl; by case_decide.
Qed.

Lemma deliver_setMessage m st evs :
  Chat.deliver (Chat.setMessage m st) evs
    = (Chat.setMessage m (Chat.deliver st evs).1, (Chat.deliver st evs).2).
Proof.
  revert st. induction evs as [|ev evs IH]; intros st; [done|].
  rewrite !deliver_cons, on_setMessage. cbn [fst snd]. by rewrite IH.
Qed.

(** X8: Typing and submitting never change the chat or the typing indicator:
    after any mix of pushed events, edits and submits, both are what the
    pushed events alone would have produced.  A message the user sends
    shows up in the chat only when the server pushes it back. *)
Theorem chat_decided_by_pushed_events st inputs :
  Chat.chat (Chat.run st inputs).1
    = Chat.chat (Chat.deliver st (Chat.pushed_events inputs)).1 ∧
  Chat.isTyping (Chat.run st inputs).1
    = Chat.isTyping (Chat.deliver st (Chat.pushed_events inputs)).1.
Proof.
  revert st. induction inputs as [|i inputs IH]; intros st; [done|].
  rewrite run_cons. cbn [fst]. destruct i as [ev|value|pathname].
  - cbn [Chat.pushed_events]. rewrite deliver_cons. apply IH.
  - cbn [Chat.pushed_events Chat.step Chat.handleInputChange fst].
    destruct (IH (Chat.setMessage value st)) as [-> ->].
    by rewrite deliver_setMessage.
  - cbn [Chat.pushed_events Chat.step].
    destruct (sendMessage_state pathname st) as [-> | ->]; [|apply IH].
    destruct (IH (Chat.setMessage "" st)) as [-> ->].
    by rewrite deliver_setMessage.
Qed.

Lemma run_emissions_Forall (P : string → string * Payload → Prop) :
  (∀ st i, Forall (P (Chat.roomId st)) (emissions (Chat.step st i).2)) →
  ∀ st inputs, Forall (P (Chat.roomId st)) (emissions (Chat.run st inputs).2).
Proof.
  intros Hstep st inputs. revert st.
  induction inputs as [|i inputs IH]; intros st; [by constructor|].
  rewrite run_cons. cbn [snd]. rewrite emissions_app. apply Forall_app. split.
  - apply Hstep.
  - rewrite <- (step_roomId st i). apply IH.
Qed.

Lemma step_emissions st i :
  emissions (Chat.step st i).2 = [] ∨
  emissions (Chat.step st i).2 = [("typing", RoomOnly (Chat.roomId st))] ∨
  ∃ ev msg, (ev = "question" ∨ ev = "response") ∧ trim msg ≠ "" ∧
    emissions (Chat.step st i).2
      = [(ev, RoomMsg (Chat.roomId st) msg);
         ("stopTyping", RoomOnly (Chat.roomId st))].
Proof.
  destruct i as [ev|value|pathname]; simpl.
  - left. destruct ev; simpl; try done;
      unfold Chat.handleQuestion, Chat.handleResponse; by case_decide.
  - right. by left.
  - destruct (decide (trim (Chat.message st) = "")) as [H|H].
    + left. by rewrite sendMessage_blank.
    + right. right. rewrite sendMessage_nonblank by done.
      exists (if includes pathname "/chat/" then "response" else "question"),
             (Chat.message st).
      split; [destruct (includes pathname "/chat/"); eauto|done].
Qed.

(** X9: While the view stays mounted (no deletion notification is
    pushed), whatever else the user and the server do, every event the
    view emits is addressed to the room the view is bound to. *)
Theorem run_emits_for_bound_room st inputs :
  Forall (λ ev, is_roomDeleted ev = false) (Chat.pushed_events inputs) →
  Forall (λ e, payload_room e.2 = Some (Chat.roomId st))
         (emissions (Chat.run st inputs).2).
Proof.
  intros _. apply (run_emissions_Forall (λ r e, payload_room e.2 = Some r)).
  intros st' i.
  destruct (step_emissions st' i) as [-> | [-> | (ev & msg & _ & _ & ->)]];
    by repeat constructor.
Qed.

Lemma run_emits_for_bound_room_witness :
  Forall (λ ev, is_roomDeleted ev = false)
         (Chat.pushed_events
            [Chat.typed "hello"; Chat.pushed (question "room-2" "elsewhere");
             Chat.submitted "/user/room-1"]) ∧
  Forall (λ e, payload_room e.2 = Some (Chat.roomId room1_session))
         (emissions (Chat.run room1_session
                       [Chat.typed "hello"; Chat.pushed (question "room-2" "elsewhere");
                        Chat.submitted "/user/room-1"]).2).
Proof.
  assert (Forall (λ ev, is_roomDeleted ev = false)
            (Chat.pushed_events
               [Chat.typed "hello"; Chat.pushed (question "room-2" "elsewhere");
                Chat.submitted "/user/room-1"])) as Hd.
  { by repeat constructor. }
  split; [exact Hd|].
  exact (run_emits_for_bound_room room1_session _ Hd).
Defined.

Lemma run_sends_Forall st inputs :
  Forall (λ e, is_send e = true →
               ∃ msg, e.2 = RoomMsg (Chat.roomId st) msg ∧ trim msg ≠ "")
         (emissions (Chat.run st inputs).2).
Proof.
  apply (run_emissions_Forall
           (λ r e, is_send e = true → ∃ msg, e.2 = RoomMsg r msg ∧ trim msg ≠ "")).
  intros st' i.
  destruct (step_emissions st' i) as [-> | [-> | (ev & msg & _ & Hmsg & ->)]].
  - constructor.
  - by repeat constructor.
  - repeat constructor; [|done]. intros _. by exists msg.
Qed.

(** X10: While the view stays mounted (no deletion notification is
    pushed), whatever else the user and the server do, the questions and
    responses the view emits all carry the bound room and a message that
    does not trim to the empty string: a blank message is never sent. *)
Theorem run_never_sends_blank st inputs :
  Forall (λ ev, is_roomDeleted ev = false) (Chat.pushed_events inputs) →
  Forall (λ e, ∃ msg, e.2 = RoomMsg (Chat.roomId st) msg ∧ trim msg ≠ "")
         (filter is_send (emissions (Chat.run st inputs).2)).
Proof.
  intros _. apply Forall_forall. intros e [He Hin]%list_elem_of_filter.
  pose proof (run_sends_Forall st inputs) as Hall.
  rewrite Forall_forall in Hall. apply Hall; [done|].
  by apply Is_true_true.
Qed.

Lemma run_never_sends_blank_witness :
  Forall (λ ev, is_roomDeleted ev = false)
         (Chat.pushed_events
            [Chat.typed "  "; Chat.submitted "/user/room-1"; Chat.pushed typing;
             Chat.typed " hello"; Chat.submitted "/user/room-1"]) ∧
  Forall (λ e, ∃ msg, e.2 = RoomMsg (Chat.roomId room1_session) msg ∧ trim msg ≠ "")
         (filter is_send
            (emissions (Chat.run room1_session
                          [Chat.typed "  "; Chat.submitted "/user/room-1";
                           Chat.pushed typing;
                           Chat.typed " hello"; Chat.submitted "/user/room-1"]).2)).
Proof.
  assert (Forall (λ ev, is_roomDeleted ev = false)
            (Chat.pushed_events
               [Chat.typed "  "; Chat.submitted "/user/room-1"; Chat.pushed typing;
                Chat.typed " hello"; Chat.submitted "/user/room-1"])) as Hd.
  { by repeat constructor. }
  split; [exact Hd|].
  exact (run_never_sends_blank room1_session _ Hd).
Defined.

(** X11: While the view stays mounted (no deletion notification is
    pushed), whatever else the user and the server do, each question or
    response the view emits is directly followed, in the order of
    emission, by [stopTyping] for the bound room. *)
Theorem run_send_then_stopTyping st inputs n e :
  Forall (λ ev, is_roomDeleted ev = false) (Chat.pushed_events inputs) →
  emissions (Chat.run st inputs).2 !! n = Some e →
  is_send e = true →
  emissions (Chat.run st inputs).2 !! S n
    = Some ("stopTyping", RoomOnly (Chat.roomId st)).
Proof.
  intros _. revert st n. induction inputs as [|i inputs IH]; intros st n; [done|].
  rewrite run_cons. cbn [snd]. rewrite emissions_app.
  specialize (IH (Chat.step st i).1). rewrite step_roomId in IH.
  destruct (step_emissions st i) as [-> | [-> | (ev & msg & _ & _ & ->)]].
  - apply IH.
  - destruct n as [|n]; simpl; [by intros [= <-]|apply IH].
  - destruct n as [|[|n]]; simpl; [done|by intros [= <-]|apply IH].
Qed.

Lemma run_send_then_stopTyping_witness :
  Forall (λ ev, is_roomDeleted ev = false)
         (Chat.pushed_events
            [Chat.typed "hello"; Chat.pushed typing;
             Chat.submitted "/user/room-1"]) ∧
  emissions (Chat.run room1_session
               [Chat.typed "hello"; Chat.pushed typing;
                Chat.submitted "/user/room-1"]).2 !! 1
    = Some ("question", RoomMsg "room-1" "hello") ∧
  is_send ("question", RoomMsg "room-1" "hello") = true ∧
  emissions (Chat.run room1_session
               [Chat.typed "hello"; Chat.pushed typing;
                Chat.submitted "/user/room-1"]).2 !! 2
    = Some ("stopTyping", RoomOnly "room-1").
Proof.
  assert (Forall (λ ev, is_roomDeleted ev = false)
            (Chat.pushed_events
               [Chat.typed "hello"; Chat.pushed typing;
                Chat.submitted "/user/room-1"])) as Hd.
  { by repeat constructor. }
  split; [exact Hd|]. split; [reflexivity|]. split; [reflexivity|].
  apply (run_send_then_stopTyping room1_session
           [Chat.typed "hello"; Chat.pushed typing; Chat.submitted "/user/room-1"]
           1 ("question", RoomMsg "room-1" "hello") Hd); reflexivity.
Defined.

(** X12: Submitting twice in a row sends at most once: the second submit,
    with no edit in between, emits nothing, whatever the paths and the
    input were. *)
Theorem second_submit_is_silent pathname pathname' st :
  emissions (Chat.sendMessage pathname' (Chat.sendMessage pathname st).1).2 = [].
Proof.
  destruct (decide (trim (Chat.message st) = "")) as [H|H].
  - rewrite (sendMessage_blank pathname) by done. cbn [fst].
    by rewrite sendMessage_blank.
  - rewrite (sendMessage_nonblank pathname) by done. cbn [fst].
    by rewrite sendMessage_blank.
Qed.

(** X13: A submit emits nothing exactly when the input holds white space
    only (the empty input included); any other character in it makes the
    submit send. *)
Theorem sendMessage_silent_iff_white_space pathname st :
  emissions (Chat.sendMessage pathname st).2 = []
    ↔ all_white_space (Chat.message st) = true.
Proof.
  rewrite <- trim_empty.
  destruct (decide (trim (Chat.message st) = "")) as [H|H].
  - by rewrite sendMessage_blank.
  - by rewrite sendMessage_nonblank.
Qed.

(** X14: Typing a text and submitting it: a text that does not trim to the
    empty string goes out as typed, between a [typing] and a [stopTyping]
    signal, and the input field is cleared; a blank text raises the
    [typing] signal only, is never followed by [stopTyping], and stays in
    the input field. *)
Theorem typed_then_submitted pathname value st :
  (trim value ≠ "" →
     emissions (Chat.run st [Chat.typed value; Chat.submitted pathname]).2
       = [("typing", RoomOnly (Chat.roomId st));
          (if includes pathname "/chat/" then "response" else "question",
           RoomMsg (Chat.roomId st) value);
          ("stopTyping", RoomOnly (Chat.roomId st))] ∧
     Chat.message (Chat.run st [Chat.typed value; Chat.submitted pathname]).1 = "") ∧
  (trim value = "" →
     emissions (Chat.run st [Chat.typed value; Chat.submitted pathname]).2
       = [("typing", RoomOnly (Chat.roomId st))] ∧
     Chat.message (Chat.run st [Chat.typed value; Chat.submitted pathname]).1 = value).
Proof.
  rewrite !run_cons.
  cbn [Chat.run Chat.step Chat.handleInputChange fst snd].
  split; intros H.
  - rewrite sendMessage_nonblank by done. by rewrite app_nil_r.
  - rewrite sendMessage_blank by done. by rewrite app_nil_r.
Qed.

Lemma typed_then_submitted_witness :
  (trim "hello " ≠ "" ∧
   Chat.message (Chat.run room1_session
                   [Chat.typed "hello "; Chat.submitted "/user/room-1"]).1 = "") ∧
  (trim "  " = "" ∧
   emissions (Chat.run room1_session
                [Chat.typed "  "; Chat.submitted "/user/room-1"]).2
     = [("typing", RoomOnly (Chat.roomId room1_session))]).
Proof.
  split.
  - split; [done|].
    apply (proj1 (typed_then_submitted "/user/room-1" "hello " room1_session)).
    done.
  - split; [reflexivity|].
    apply (proj2 (typed_then_submitted "/user/room-1" "  " room1_session)).
    reflexivity.
Defined.

End ChatRunFacts.

(** ** The role of a send, by route *)

Section RouteFacts.
Import JsString.

Lemma no_slash_startsWith r :
  includes r "/" = false → startsWith r "chat/" = false.
Proof.
  intros Hr. destruct (startsWith r "chat/") eqn:H; [|done].
  apply startsWith_spec in H as [rest ->].
  assert (includes ("chat/" +:+ rest) "/" = true) as Hc; [|congruence].
  apply includes_spec. by exists "chat", rest.
Qed.

Lemma no_slash_includes r :
  includes r "/" = false → includes r "/chat/" = false.
Proof.
  intros Hr. destruct (includes r "/chat/") eqn:H; [|done].
  apply includes_spec in H as (before & after & ->).
  assert (includes (before +:+ "/chat/" +:+ after) "/" = true) as Hc; [|congruence].
  apply includes_spec. by exists before, ("chat/" +:+ after).
Qed.

Lemma user_path_not_chat r :
  includes r "/" = false → includes ("/user/" +:+ r) "/chat/" = false.
Proof.
  intros Hr. rewrite !append_cons. change ("" +:+ r) with r.
  rewrite !includes_cons, (no_slash_includes r Hr). simpl.
  by rewrite (no_slash_startsWith r Hr).
Qed.

Lemma chat_path_is_chat r : includes ("/chat/" +:+ r) "/chat/" = true.
Proof. apply includes_spec. by exists "", r. Qed.

(** X15: At any path that holds "/chat/", such as [/chat/<id>], the route
    of the view the dashboard opens, every non-blank send is a response,
    whatever surrounds "/chat/" in the path. *)
Theorem chat_route_sends_responses before after st :
  trim (Chat.message st) ≠ "" →
  filter is_send
    (emissions (Chat.sendMessage (before +:+ "/chat/" +:+ after) st).2)
    = [("response", RoomMsg (Chat.roomId st) (Chat.message st))].
Proof.
  intros H. rewrite sendMessage_nonblank by done.
  assert (includes (before +:+ "/chat/" +:+ after) "/chat/" = true) as ->.
  { apply includes_spec. by exists before, after. }
  done.
Qed.

Lemma chat_route_sends_responses_witness :
  trim (Chat.message (room1_typed "on it")) ≠ "" ∧
  filter is_send
    (emissions (Chat.sendMessage ("" +:+ "/chat/" +:+ "room-1")
                  (room1_typed "on it")).2)
    = [("response", RoomMsg "room-1" "on it")].
Proof.
  split; [done|].
  apply (chat_route_sends_responses "" "room-1" (room1_typed "on it")). done.
Defined.

(** X16: In the asker's view, at [/user/<id>] with an id holding no "/", every
    non-blank send is a question, whatever the id is (an id such as
    "chat" included). *)
Theorem user_route_sends_questions r st :
  includes r "/" = false →
  trim (Chat.message st) ≠ "" →
  filter is_send (emissions (Chat.sendMessage ("/user/" +:+ r) st).2)
    = [("question", RoomMsg (Chat.roomId st) (Chat.message st))].
Proof.
  intros Hr H. rewrite sendMessage_nonblank by done.
  by rewrite user_path_not_chat.
Qed.

Lemma user_route_sends_questions_witness :
  includes "chat" "/" = false ∧
  trim (Chat.message (room1_typed "hello")) ≠ "" ∧
  filter is_send
    (emissions (Chat.sendMessage ("/user/" +:+ "chat") (room1_typed "hello")).2)
    = [("question", RoomMsg "room-1" "hello")].
Proof.
  split; [reflexivity|]. split; [done|].
  apply (user_route_sends_questions "chat" (room1_typed "hello")); done.
Defined.

End RouteFacts.

(** ** The dashboard over sequences of pushed events *)

Section DirectoryFacts.

Lemma directory_deliver_cons st ev evs :
  Responder.deliver st (ev :: evs) =
    ((Responder.deliver (Responder.on st ev).1 evs).1,
     (Responder.on st ev).2 ++ (Responder.deliver (Responder.on st ev).1 evs).2).
Proof.
  simpl. destruct (Responder.on st ev) as [st1 effs1]. simpl.
  by destruct (Responder.deliver st1 evs) as [st2 effs2].
Qed.

Lemma directory_deliver_app st evs1 evs2 :
  (Responder.deliver st (evs1 ++ evs2)).1
    = (Responder.deliver (Responder.deliver st evs1).1 evs2).1.
Proof.
  revert st. induction evs1 as [|ev evs1 IH]; intros st; [done|].
  rewrite <- app_comm_cons, !directory_deliver_cons. cbn [fst]. apply IH.
Qed.

Lemma directory_on_lookup st ev k :
  is_roomsList ev = false →
  Responder.activeRooms (Responder.on st ev).1 !! k =
    match Responder.asked_in k ev with
    | Some msg => Some (Some msg)
    | None => Responder.activeRooms st !! k
    end.
Proof.
  intros Hev. destruct ev; simpl in *; try done.
  case_decide as Hk.
  - subst. apply lookup_insert_eq.
  - by apply lookup_insert_ne.
Qed.

Lemma directory_deliver_lookup st evs k :
  Forall (λ ev, is_roomsList ev = false) evs →
  Responder.activeRooms (Responder.deliver st evs).1 !! k =
    match last (omap (Responder.asked_in k) evs) with
    | Some msg => Some (Some msg)
    | None => Responder.activeRooms st !! k
    end.
Proof.
  intros Hevs. revert st.
  induction Hevs as [|ev evs Hev _ IH]; intros st; [done|].
  rewrite directory_deliver_cons. cbn [fst]. rewrite IH, directory_on_lookup by done.
  destruct (Responder.asked_in k ev) as [msg|] eqn:Hask.
  - replace (omap (Responder.asked_in k) (ev :: evs))
      with (msg :: omap (Responder.asked_in k) evs) by (simpl; by rewrite Hask).
    rewrite last_cons. by destruct (last (omap (Responder.asked_in k) evs)).
  - replace (omap (Responder.asked_in k) (ev :: evs))
      with (omap (Responder.asked_in k) evs) by (simpl; by rewrite Hask).
    done.
Qed.

(** X17: Between two rooms lists, the preview the dashboard holds for a room
    is the message of the last question received for that room, and the
    entry it held before if no question for the room arrived; responses,
    deletion notifications and typing signals do not change it. *)
Theorem directory_shows_last_question st evs k :
  Forall (λ ev, is_roomsList ev = false) evs →
  Responder.activeRooms (Responder.deliver st evs).1 !! k =
    match last (omap (Responder.asked_in k) evs) with
    | Some msg => Some (Some msg)
    | None => Responder.activeRooms st !! k
    end.
Proof. apply directory_deliver_lookup. Qed.

Lemma directory_shows_last_question_witness :
  Forall (λ ev, is_roomsList ev = false)
         [question "room-1" "hello"; response "room-1" "hi there";
          question "room-1" "still there?"; roomDeleted "room-1"] ∧
  Responder.activeRooms
    (Responder.deliver Responder.mount.1
       [question "room-1" "hello"; response "room-1" "hi there";
        question "room-1" "still there?"; roomDeleted "room-1"]).1 !! "room-1"
    = match last (omap (Responder.asked_in "room-1")
                    [question "room-1" "hello"; response "room-1" "hi there";
                     question "room-1" "still there?"; roomDeleted "room-1"]) with
      | Some msg => Some (Some msg)
      | None => Responder.activeRooms Responder.mount.1 !! "room-1"
      end.
Proof.
  assert (Forall (λ ev, is_roomsList ev = false)
            [question "room-1" "hello"; response "room-1" "hi there";
             question "room-1" "still there?"; roomDeleted "room-1"]) as H.
  { by repeat constructor. }
  split; [exact H|].
  exact (directory_shows_last_question Responder.mount.1 _ "room-1" H).
Defined.

(** X18: Between two rooms lists the dashboard never drops a room: every room
    it listed is still listed after any events that are not a rooms list,
    a deletion notification for that room included. *)
Theorem directory_keeps_rooms st evs :
  Forall (λ ev, is_roomsList ev = false) evs →
  dom (Responder.activeRooms st) ⊆ dom (Responder.activeRooms (Responder.deliver st evs).1).
Proof.
  intros Hevs k [preview Hk]%elem_of_dom. apply elem_of_dom.
  rewrite directory_deliver_lookup by done.
  destruct (last (omap (Responder.asked_in k) evs)); [by eexists|].
  rewrite Hk. by eexists.
Qed.

Lemma directory_keeps_rooms_witness :
  Forall (λ ev, is_roomsList ev = false) [roomDeleted "room-1"; getRooms] ∧
  dom (Responder.activeRooms (Responder.on Responder.mount.1 (question "room-1" "hello")).1)
    ⊆ dom (Responder.activeRooms
             (Responder.deliver
                (Responder.on Responder.mount.1 (question "room-1" "hello")).1
                [roomDeleted "room-1"; getRooms]).1).
Proof.
  assert (Forall (λ ev, is_roomsList ev = false) [roomDeleted "room-1"; getRooms])
    as H by (by repeat constructor).
  split; [exact H|].
  exact (directory_keeps_rooms
           (Responder.on Responder.mount.1 (question "room-1" "hello")).1 _ H).
Defined.

(** X19: A rooms list wipes what came before it: the directory after a rooms
    list and further events is what a freshly mounted dashboard would
    hold after the same rooms list and the same further events. *)
Theorem directory_decided_since_rooms_list st before rooms after :
  Responder.activeRooms
    (Responder.deliver st (before ++ roomsList rooms :: after)).1
  = Responder.activeRooms
      (Responder.deliver Responder.mount.1 (roomsList rooms :: after)).1.
Proof. by rewrite directory_deliver_app, !directory_deliver_cons. Qed.

(** X20: The dashboard answers each [getRooms] event with one [getRooms]
    request, emits nothing else and never navigates on a pushed event. *)
Theorem directory_requests_per_getRooms st evs :
  emissions (Responder.deliver st evs).2
    = replicate (length (filter (λ ev, is_getRooms ev = true) evs))
                ("getRooms", NoArgs) ∧
  navigations (Responder.deliver st evs).2 = [].
Proof.
  revert st. induction evs as [|ev evs IH]; intros st; [done|].
  rewrite directory_deliver_cons. cbn [snd].
  destruct (IH (Responder.on st ev).1) as [Hemit Hnav].
  rewrite emissions_app, navigations_app, Hemit, Hnav.
  by destruct ev.
Qed.

Lemma listed_preview_app k rooms1 rooms2 :
  Responder.listed_preview k (rooms1 ++ rooms2) =
    match Responder.listed_preview k rooms2 with
    | Some preview => Some preview
    | None => Responder.listed_preview k rooms1
    end.
Proof.
  unfold Responder.listed_preview. rewrite filter_app, last_app.
  by destruct (last (filter (λ room, id room = k) rooms2)).
Qed.

(** X21: A rooms list in two parts: the directory built from [rooms1 ++ rooms2]
    is the directory of [rooms2] completed by the entries of [rooms1] for
    the rooms that [rooms2] does not list. *)
Theorem formattedRooms_app rooms1 rooms2 :
  Responder.formattedRooms (rooms1 ++ rooms2)
    = Responder.formattedRooms rooms2 ∪ Responder.formattedRooms rooms1.
Proof.
  apply map_eq. intros k.
  rewrite lookup_union, !formattedRooms_lookup, listed_preview_app.
  case_decide; [done|].
  destruct (Responder.listed_preview k rooms2) as [preview|];
    by destruct (Responder.listed_preview k rooms1).
Qed.

Lemma filter_absent_id (rooms : list Room) k :
  k ∉ id <$> rooms → filter (λ room, id room = k) rooms = [].
Proof.
  induction rooms as [|room rooms IH]; intros Hk; [done|].
  rewrite fmap_cons in Hk. apply not_elem_of_cons in Hk as [Hne Hk].
  rewrite filter_cons, decide_False by done. by apply IH.
Qed.

Lemma filter_unique_id (rooms : list Room) room :
  NoDup (id <$> rooms) → room ∈ rooms →
  filter (λ room', id room' = id room) rooms = [room].
Proof.
  induction rooms as [|room' rooms IH]; intros Hnd Hin.
  - by apply elem_of_nil in Hin.
  - rewrite fmap_cons in Hnd. apply NoDup_cons in Hnd as [Hnotin Hnd].
    rewrite filter_cons. apply elem_of_cons in Hin as [->|Hin].
    + rewrite decide_True by done. f_equal. by apply filter_absent_id.
    + rewrite decide_False; [by apply IH|].
      intros Heq. apply Hnotin. rewrite Heq. by apply list_elem_of_fmap_2.
Qed.

(** X22: When the rooms list names each room once and none under the id
    "__proto__", the dashboard holds one entry per listed room and shows
    for each room the preview the list gives for it. *)
Theorem formattedRooms_distinct_ids rooms :
  NoDup (id <$> rooms) →
  "__proto__" ∉ (id <$> rooms) →
  size (Responder.formattedRooms rooms) = length rooms ∧
  ∀ room, room ∈ rooms →
    Responder.formattedRooms rooms !! id room = Some (latestMessage room).
Proof.
  intros Hnd Hproto.
  assert (filter (λ k, k ≠ "__proto__") (id <$> rooms) = id <$> rooms) as Hall.
  { clear Hnd. induction (id <$> rooms) as [|k ks IH]; [done|].
    apply not_elem_of_cons in Hproto as [Hk Hks].
    rewrite filter_cons, decide_True by done. by rewrite IH. }
  split.
  - rewrite <- size_dom, formattedRooms_dom, Hall, size_list_to_set by done.
    apply length_fmap.
  - intros room Hin. rewrite formattedRooms_lookup.
    rewrite decide_False.
    + unfold Responder.listed_preview. by rewrite filter_unique_id.
    + intros Hid. apply Hproto. rewrite <- Hid. by apply list_elem_of_fmap_2.
Qed.

Lemma formattedRooms_distinct_ids_witness :
  NoDup (id <$> [{| id := "room-1"; latestMessage := Some "hello" |};
                 {| id := "room-2"; latestMessage := None |}]) ∧
  ("__proto__" ∉ (id <$> [{| id := "room-1"; latestMessage := Some "hello" |};
                          {| id := "room-2"; latestMessage := None |}])) ∧
  size (Responder.formattedRooms
          [{| id := "room-1"; latestMessage := Some "hello" |};
           {| id := "room-2"; latestMessage := None |}]) = 2.
Proof.
  assert (NoDup (id <$> [{| id := "room-1"; latestMessage := Some "hello" |};
                         {| id := "room-2"; latestMessage := None |}])) as H.
  { by apply (bool_decide_unpack _). }
  assert ("__proto__" ∉ (id <$> [{| id := "room-1"; latestMessage := Some "hello" |};
                                 {| id := "room-2"; latestMessage := None |}])) as H'.
  { by apply (bool_decide_unpack _). }
  split; [exact H|]. split; [exact H'|].
  exact (proj1 (formattedRooms_distinct_ids _ H H')).
Defined.

(** A room listed twice takes one entry only, with the preview of its
    last occurrence. *)
Example formattedRooms_repeated_id :
  Responder.formattedRooms
    [{| id := "room-1"; latestMessage := Some "old" |};
     {| id := "room-1"; latestMessage := Some "new" |}]
  = {[ "room-1" := Some "new" ]}.
Proof. apply map_eq. intros k. by vm_compute. Qed.

End DirectoryFacts.
